(** * mozc [base/port.h]: build-target classification

    A shallow embedding of [src/base/port.h]: the enumeration
    [port_internal::PlatformType], the preprocessor conditional that
    defines the constant [port_internal::kTargetPlatform], and the eight
    [constexpr] predicates [TargetIs...] that read it. *)

From Stdlib Require Import ZArith.
From stdpp Require Import gmap strings list finite.

#[local] Set Warnings "-register-all".

Local Open Scope string_scope.
Local Open Scope Z_scope.

(** ** The preprocessor fragment the header uses *)

Module cpp.

(** The macro table at the point of the conditional (after the compiler's
    predefined macros, the command line, and [<TargetConditionals.h>]
    when [__APPLE__] makes the header include it).  A defined macro holds
    the integer its replacement evaluates to. *)
Abbreviation Macros := (gmap string Z).

(** Controlling expressions: [defined(NAME)] and a bare [NAME], which
    [#if] evaluates as an integer, an identifier that is not a macro
    counting as 0. *)
Inductive Cond : Type :=
  | defined (name : string)
  | nonzero (name : string).

Definition holds (m : Macros) (c : Cond) : bool :=
  match c with
  | defined name => bool_decide (is_Some (m !! name))
  | nonzero name => negb (default 0 (m !! name) =? 0)
  end.

(** A conditional group is a chain [#if c1 ... #elif c2 ... #else ...
    #endif]; its bodies hold lines of kind [A] (for this header: a
    definition of the constant), [#error] directives and nested groups. *)
Inductive Source (A : Type) : Type :=
  | line (a : A)
  | error (msg : string)
  | if_group (chain : list (Cond * list (Source A)))
             (otherwise : list (Source A)).
Arguments line {A} a.
Arguments error {A} msg.
Arguments if_group {A} chain otherwise.

(** What is left of the text after preprocessing. *)
Inductive Out (A : Type) : Type :=
  | kept (a : A)
  | diagnostic (msg : string).
Arguments kept {A} a.
Arguments diagnostic {A} msg.

(** The first group of a chain whose condition holds is kept, the
    [#else] group when none does. *)
Fixpoint preprocess {A : Type} (m : Macros) (s : Source A)
    {struct s} : list (Out A) :=
  match s with
  | line a => [kept a]
  | error msg => [diagnostic msg]
  | if_group chain otherwise =>
      let body :=
        fix body (ss : list (Source A)) : list (Out A) :=
          match ss with
          | [] => []
          | s' :: ss' => (preprocess m s' ++ body ss')%list
          end in
      (fix select (groups : list (Cond * list (Source A))) : list (Out A) :=
         match groups with
         | [] => body otherwise
         | (c, ss) :: groups' =>
             if holds m c then body ss else select groups'
         end) chain
  end.

End cpp.

(** ** [namespace port_internal] *)

Module port_internal.
Import cpp.

(** [enum class PlatformType]: a mutually exclusive list of target
    platforms. *)
Inductive PlatformType : Type :=
  | kWindows   (* Windows *)
  | kLinux     (* Linux, excluding Android *)
  | kOSX       (* OSX *)
  | kAndroid   (* Android *)
  | kIPhone    (* Darwin-based firmware, devices, or simulator *)
  | kWASM      (* WASM *)
  | kChromeOS. (* ChromeOS *)

(** The enumerators carry no initialiser, so they number from 0 in the
    order of declaration. *)
Definition underlying (p : PlatformType) : Z :=
  match p with
  | kWindows => 0
  | kLinux => 1
  | kOSX => 2
  | kAndroid => 3
  | kIPhone => 4
  | kWASM => 5
  | kChromeOS => 6
  end.

(** The built-in [==] of a scoped enumeration compares those values. *)
Definition eq_op (a b : PlatformType) : bool := underlying a =? underlying b.

(** The conditional of lines 51-73.  [line p] stands for the line
    [inline constexpr PlatformType kTargetPlatform = PlatformType::p;]. *)
Definition kTargetPlatform_src : Source PlatformType :=
  if_group
    [ (defined "__linux__",
        [ if_group
            [ (defined "__ANDROID__", [ line kAndroid ]);
              (defined "OS_CHROMEOS", [ line kChromeOS ]) ]
            [ line kLinux ] ]);
      (defined "_WIN32", [ line kWindows ]);
      (defined "__APPLE__",
        [ if_group
            [ (nonzero "TARGET_OS_OSX", [ line kOSX ]);
              (nonzero "TARGET_OS_IPHONE", [ line kIPhone ]) ]
            [ error "Unsupported Apple platform target." ] ]);
      (defined "__wasm__", [ line kWASM ]) ]
    [ error "Unsupported target platform." ].

(** How a build of the header ends: with the constant defined, or with a
    failure.  An [#error] fails the build with its message; text that
    defined the constant twice, or not at all although the predicates
    below read it, would not compile either. *)
Inductive Failure : Type :=
  | error_directive (msg : string)
  | redefinition
  | undeclared.

Inductive Build : Type :=
  | Resolved (p : PlatformType)
  | Failed (f : Failure).

Fixpoint diagnostics {A : Type} (outs : list (Out A)) : list string :=
  match outs with
  | [] => []
  | kept _ :: outs' => diagnostics outs'
  | diagnostic msg :: outs' => msg :: diagnostics outs'
  end.

Fixpoint definitions {A : Type} (outs : list (Out A)) : list A :=
  match outs with
  | [] => []
  | kept a :: outs' => a :: definitions outs'
  | diagnostic _ :: outs' => definitions outs'
  end.

Definition build (outs : list (Out PlatformType)) : Build :=
  match diagnostics outs, definitions outs with
  | msg :: _, _ => Failed (error_directive msg)
  | [], [p] => Resolved p
  | [], [] => Failed undeclared
  | [], _ :: _ :: _ => Failed redefinition
  end.

(** The text of the conditional that survives under the macro table [m],
    and the value it gives the constant. *)
Definition translation_unit (m : Macros) : list (Out PlatformType) :=
  preprocess m kTargetPlatform_src.

Definition kTargetPlatform (m : Macros) : Build :=
  build (translation_unit m).

End port_internal.

(** ** [namespace mozc]: the [TargetIs...] predicates *)

Section TargetIs.

(** The predicates are [constexpr] functions without arguments that read
    the one constant [port_internal::kTargetPlatform]; they exist in the
    builds that define it, and the variable is its value there. *)
Variable kTargetPlatform : port_internal.PlatformType.

Local Infix "==" := port_internal.eq_op (at level 70, no associativity).

(** The build target is Windows. *)
Definition TargetIsWindows : bool :=
  kTargetPlatform == port_internal.kWindows.

(** The build target is Linux, including Android and ChromeOS. *)
Definition TargetIsLinux : bool :=
  (kTargetPlatform == port_internal.kLinux) ||
  (kTargetPlatform == port_internal.kAndroid) ||
  (kTargetPlatform == port_internal.kChromeOS).

(** The build target is Android. *)
Definition TargetIsAndroid : bool :=
  kTargetPlatform == port_internal.kAndroid.

(** The build target is Darwin, like OSX and iPhone. *)
Definition TargetIsDarwin : bool :=
  (kTargetPlatform == port_internal.kOSX) ||
  (kTargetPlatform == port_internal.kIPhone).

(** The build target is OSX. *)
Definition TargetIsOSX : bool :=
  kTargetPlatform == port_internal.kOSX.

(** The build target is firmware, devices, or simulator. *)
Definition TargetIsIPhone : bool :=
  kTargetPlatform == port_internal.kIPhone.

(** The build target is WASM. *)
Definition TargetIsWASM : bool :=
  kTargetPlatform == port_internal.kWASM.

(** The build target is ChromeOS. *)
Definition TargetIsChromeOS : bool :=
  kTargetPlatform == port_internal.kChromeOS.

End TargetIs.

(** ** The resolver of the specification (section 4.1) *)

Module resolver_spec.
Import cpp port_internal.

(** The build-environment markers the specification names. *)
Inductive Marker : Type :=
  | LinuxFamily
  | Android
  | ChromeOS
  | Windows
  | AppleFamily
  | MacOS
  | IPhone
  | WebAssembly.

#[global] Instance Marker_eq_dec : EqDecision Marker.
Proof. solve_decision. Defined.

#[global] Program Instance Marker_finite : Finite Marker :=
  {| enum := [ LinuxFamily; Android; ChromeOS; Windows;
               AppleFamily; MacOS; IPhone; WebAssembly ] |}.
Next Obligation. by apply (bool_decide_unpack _). Qed.
Next Obligation. intros []; set_solver. Qed.

(** How the header tests each marker. *)
Definition test (k : Marker) : Cond :=
  match k with
  | LinuxFamily => defined "__linux__"
  | Android => defined "__ANDROID__"
  | ChromeOS => defined "OS_CHROMEOS"
  | Windows => defined "_WIN32"
  | AppleFamily => defined "__APPLE__"
  | MacOS => nonzero "TARGET_OS_OSX"
  | IPhone => nonzero "TARGET_OS_IPHONE"
  | WebAssembly => defined "__wasm__"
  end.

(** The set of markers that are active under a macro table. *)
Definition markers (m : Macros) : gset Marker :=
  list_to_set (filter (λ k, Is_true (holds m (test k))) (enum Marker)).

(** The macro behind a marker, and a macro table that activates exactly
    the markers of a set. *)
Definition macro_of (k : Marker) : string :=
  match test k with
  | defined name | nonzero name => name
  end.

Definition macros_of (S : gset Marker) : Macros :=
  list_to_map ((λ k, (macro_of k, 1)) <$> elements S).

(** The rules of section 4.1 in their order, each with the markers it
    asks for: 1a, 1b, 1c, 2, 3a, 3b, 3c, 4, 5. *)
Record Rule : Type := { guard : list Marker; outcome : Build }.

Definition rules_4_1 : list Rule :=
  [ {| guard := [ LinuxFamily; Android ]; outcome := Resolved kAndroid |};
    {| guard := [ LinuxFamily; ChromeOS ]; outcome := Resolved kChromeOS |};
    {| guard := [ LinuxFamily ]; outcome := Resolved kLinux |};
    {| guard := [ Windows ]; outcome := Resolved kWindows |};
    {| guard := [ AppleFamily; MacOS ]; outcome := Resolved kOSX |};
    {| guard := [ AppleFamily; IPhone ]; outcome := Resolved kIPhone |};
    {| guard := [ AppleFamily ];
       outcome := Failed (error_directive "Unsupported Apple platform target.") |};
    {| guard := [ WebAssembly ]; outcome := Resolved kWASM |};
    {| guard := [];
       outcome := Failed (error_directive "Unsupported target platform.") |} ].

Definition matches (S : gset Marker) (r : Rule) : Prop :=
  ∀ k, k ∈ guard r → k ∈ S.

#[global] Instance matches_dec S r : Decision (matches S r).
Proof. unfold matches. apply _. Defined.

(** Rule number [i] is the first one that matches. *)
Definition first_match (S : gset Marker) (i : nat) (r : Rule) : Prop :=
  rules_4_1 !! i = Some r ∧ matches S r ∧
  ∀ j r', rules_4_1 !! j = Some r' → (j < i)%nat → ¬ matches S r'.

(** First match wins. *)
Definition Resolver (S : gset Marker) : option Build :=
  outcome ∘ snd <$> list_find (matches S) rules_4_1.

(** A supported build configuration: its first matching rule names a
    platform. *)
Definition supported (S : gset Marker) : Prop :=
  ∃ i r p, first_match S i r ∧ outcome r = Resolved p.

(** The single error kind of section 7. *)
Definition UnsupportedPlatform (b : Build) : Prop :=
  ∃ msg, b = Failed (error_directive msg).

End resolver_spec.

Import cpp port_internal resolver_spec.

(** ** The branches of the conditional *)

(** The nine branches of the conditional, each with the markers that
    lead to it. *)
Inductive branch (S : gset Marker) : Build → Prop :=
  | branch_android :
      LinuxFamily ∈ S → Android ∈ S → branch S (Resolved kAndroid)
  | branch_chromeos :
      LinuxFamily ∈ S → Android ∉ S → ChromeOS ∈ S →
      branch S (Resolved kChromeOS)
  | branch_linux :
      LinuxFamily ∈ S → Android ∉ S → ChromeOS ∉ S →
      branch S (Resolved kLinux)
  | branch_windows :
      LinuxFamily ∉ S → Windows ∈ S → branch S (Resolved kWindows)
  | branch_osx :
      LinuxFamily ∉ S → Windows ∉ S → AppleFamily ∈ S → MacOS ∈ S →
      branch S (Resolved kOSX)
  | branch_iphone :
      LinuxFamily ∉ S → Windows ∉ S → AppleFamily ∈ S → MacOS ∉ S →
      IPhone ∈ S → branch S (Resolved kIPhone)
  | branch_apple_error :
      LinuxFamily ∉ S → Windows ∉ S → AppleFamily ∈ S → MacOS ∉ S →
      IPhone ∉ S →
      branch S (Failed (error_directive "Unsupported Apple platform target."))
  | branch_wasm :
      LinuxFamily ∉ S → Windows ∉ S → AppleFamily ∉ S → WebAssembly ∈ S →
      branch S (Resolved kWASM)
  | branch_error :
      LinuxFamily ∉ S → Windows ∉ S → AppleFamily ∉ S → WebAssembly ∉ S →
      branch S (Failed (error_directive "Unsupported target platform.")).

(** ** Groups of predicates *)

(** The families as the comments of the header declare them. *)
Definition linux_family : list PlatformType := [ kLinux; kAndroid; kChromeOS ].
Definition darwin_family : list PlatformType := [ kOSX; kIPhone ].

(** The seven leaf cases: the six predicates of a single platform and
    the case of desktop Linux, which has no predicate of its own. *)
Definition desktop_linux_only (p : PlatformType) : bool :=
  TargetIsLinux p && negb (TargetIsAndroid p) && negb (TargetIsChromeOS p).

Definition leaf_cases (p : PlatformType) : list bool :=
  [ TargetIsWindows p; TargetIsAndroid p; TargetIsOSX p; TargetIsIPhone p;
    TargetIsWASM p; TargetIsChromeOS p; desktop_linux_only p ].

(** The predicates of a single platform with the platform each names,
    and the family predicates with their declared members. *)
Definition leaf_predicates : list ((PlatformType → bool) * PlatformType) :=
  [ (TargetIsWindows, kWindows); (TargetIsAndroid, kAndroid);
    (TargetIsOSX, kOSX); (TargetIsIPhone, kIPhone);
    (TargetIsWASM, kWASM); (TargetIsChromeOS, kChromeOS) ].

Definition family_predicates
    : list ((PlatformType → bool) * list PlatformType) :=
  [ (TargetIsLinux, linux_family); (TargetIsDarwin, darwin_family) ].

(** The four top-level groups. *)
Definition groups (p : PlatformType) : list bool :=
  [ TargetIsWindows p; TargetIsLinux p; TargetIsDarwin p; TargetIsWASM p ].

(** The public interface. *)
Definition predicates : list (PlatformType → bool) :=
  [ TargetIsWindows; TargetIsLinux; TargetIsAndroid; TargetIsDarwin;
    TargetIsOSX; TargetIsIPhone; TargetIsWASM; TargetIsChromeOS ].

(** ** Macro tables of sample builds *)

(** An Android build. *)
Definition macros_android : Macros :=
  <[ "__ANDROID__" := 1 ]> {[ "__linux__" := 1 ]}.

(** [__linux__] together with [__APPLE__] and no Apple sub-target. *)
Definition macros_linux_apple : Macros :=
  <[ "__APPLE__" := 1 ]> {[ "__linux__" := 1 ]}.

(** [__linux__] together with [__APPLE__] and both Apple sub-targets. *)
Definition macros_linux_apple_dual : Macros :=
  <[ "TARGET_OS_IPHONE" := 1 ]>
    (<[ "TARGET_OS_OSX" := 1 ]>
       (<[ "__APPLE__" := 1 ]> {[ "__linux__" := 1 ]})).

(** Both sub-markers of one family. *)
Definition macros_linux_dual : Macros :=
  <[ "OS_CHROMEOS" := 1 ]>
    (<[ "__ANDROID__" := 1 ]> {[ "__linux__" := 1 ]}).

Definition macros_apple_dual : Macros :=
  <[ "TARGET_OS_IPHONE" := 1 ]>
    (<[ "TARGET_OS_OSX" := 1 ]> {[ "__APPLE__" := 1 ]}).


(** A Windows build with Microsoft's compiler. *)
Definition macros_windows_msvc : Macros :=
  <[ "_MSC_VER" := 1930 ]> {[ "_WIN32" := 1 ]}.

(** ** The header as a whole *)


Module port_h.

(** The preprocessor state around an inclusion of the header: the
    integer macros it finds, and the two macros the header defines
    itself, whose replacement is not an integer: the include guard
    [MOZC_BASE_PORT_H_], defined with an empty replacement, and
    [MOZC_NO_UNIQUE_ADDRESS_ATTRIBUTE] with the attribute it stands for. *)
Record State : Type := {
  macros : Macros;
  include_guard : bool;
  no_unique_address_attribute : option string
}.

(** A translation unit that has not seen the header yet. *)
Definition initial (m : Macros) : State :=
  {| macros := m; include_guard := false;
     no_unique_address_attribute := None |}.

(** What one [#include "base/port.h"] does: nothing when the guard is
    defined; otherwise it declares the constant with a platform, the
    predicates with it, and leaves a new state, or fails the build. *)
Inductive Inclusion : Type :=
  | skipped (st : State)
  | declared (p : PlatformType) (st : State)
  | failed (f : Failure).

Section Include.

(** [<TargetConditionals.h>] belongs to Apple's SDK: what it does to the
    integer macros is a parameter. *)
Variable TargetConditionals : Macros → Macros.

(** Lines 30-172 in their order: the guard, the include under
    [#ifdef __APPLE__], the conditional of [kTargetPlatform], and the
    [#define] of the attribute under [#ifdef _MSC_VER], which replaces a
    definition the macro had. *)
Definition include (st : State) : Inclusion :=
  if include_guard st || holds (macros st) (defined "MOZC_BASE_PORT_H_")
  then skipped st
  else
    let m :=
      if holds (macros st) (defined "__APPLE__")
      then TargetConditionals (macros st)
      else macros st in
    match kTargetPlatform m with
    | Failed f => failed f
    | Resolved p =>
        declared p
          {| macros := delete "MOZC_NO_UNIQUE_ADDRESS_ATTRIBUTE" m;
             include_guard := true;
             no_unique_address_attribute :=
               Some (if holds m (defined "_MSC_VER")
                     then "[[msvc::no_unique_address]]"
                     else "[[no_unique_address]]") |}
    end.

(** The header included [n] times in a row; a failure ends the build. *)
Fixpoint include_times (n : nat) (st : State) : list Inclusion :=
  match n with
  | O => []
  | S n' =>
      match include st with
      | skipped st' => skipped st' :: include_times n' st'
      | declared p st' => declared p st' :: include_times n' st'
      | failed f => [ failed f ]
      end
  end.

End Include.

Definition is_declared (r : Inclusion) : bool :=
  match r with
  | declared _ _ => true
  | skipped _ | failed _ => false
  end.

End port_h.

(** The state one inclusion leaves in that build. *)
Definition included_windows_msvc : port_h.State :=
  {| port_h.macros :=
       delete "MOZC_NO_UNIQUE_ADDRESS_ATTRIBUTE" macros_windows_msvc;
     port_h.include_guard := true;
     port_h.no_unique_address_attribute :=
       Some "[[msvc::no_unique_address]]" |}.

(** What Apple's header leaves on a Mac: both sub-targets defined, the
    desktop one as 1. *)
Definition TargetConditionals_mac (m : Macros) : Macros :=
  <[ "TARGET_OS_IPHONE" := 0 ]> (<[ "TARGET_OS_OSX" := 1 ]> m).

(** * Properties *)

(** ** The conditional, unfolded *)

(** Under every macro table the conditional keeps the text of one
    branch, chosen by the tests in the order the header writes them. *)
Lemma translation_unit_unfold (m : Macros) :
  translation_unit m =
    if holds m (defined "__linux__") then
      if holds m (defined "__ANDROID__") then [ kept kAndroid ]
      else if holds m (defined "OS_CHROMEOS") then [ kept kChromeOS ]
      else [ kept kLinux ]
    else if holds m (defined "_WIN32") then [ kept kWindows ]
    else if holds m (defined "__APPLE__") then
      if holds m (nonzero "TARGET_OS_OSX") then [ kept kOSX ]
      else if holds m (nonzero "TARGET_OS_IPHONE") then [ kept kIPhone ]
      else [ diagnostic "Unsupported Apple platform target." ]
    else if holds m (defined "__wasm__") then [ kept kWASM ]
    else [ diagnostic "Unsupported target platform." ].
Proof.
  cbv [translation_unit kTargetPlatform_src preprocess].
  repeat (case (holds m _); [ reflexivity || idtac | reflexivity || idtac ]).
Qed.

(** Exactly one line survives: the conditional never leaves the constant
    without a definition or a diagnostic, and never defines it twice. *)
Lemma translation_unit_single (m : Macros) :
  ∃ o, translation_unit m = [ o ].
Proof.
  rewrite translation_unit_unfold.
  repeat case (holds m _); eauto.
Qed.

Lemma elem_of_markers (m : Macros) (k : Marker) :
  k ∈ markers m ↔ holds m (test k) = true.
Proof.
  unfold markers. rewrite elem_of_list_to_set, list_elem_of_filter.
  rewrite Is_true_true. pose proof (elem_of_enum k). tauto.
Qed.

Lemma not_elem_of_markers (m : Macros) (k : Marker) :
  k ∉ markers m ↔ holds m (test k) = false.
Proof. rewrite elem_of_markers. apply not_true_iff_false. Qed.

Lemma matches_Forall (S : gset Marker) (r : Rule) :
  matches S r ↔ Forall (λ k, k ∈ S) (guard r).
Proof. unfold matches. by rewrite Forall_forall. Qed.

(** ** Every marker set arises from a macro table *)

Lemma macro_of_inj (k k' : Marker) : macro_of k = macro_of k' → k = k'.
Proof. destruct k, k'; cbv [macro_of test]; congruence. Qed.

Lemma lookup_macros_of (S : gset Marker) (k : Marker) :
  macros_of S !! macro_of k = if decide (k ∈ S) then Some 1 else None.
Proof.
  unfold macros_of. destruct (decide (k ∈ S)) as [Hin | Hout].
  - apply elem_of_list_to_map_1.
    + rewrite <- list_fmap_compose. apply NoDup_fmap_2_strong.
      * intros a b _ _ Hab. by apply macro_of_inj.
      * apply NoDup_elements.
    + apply list_elem_of_fmap. exists k. by rewrite elem_of_elements.
  - apply not_elem_of_list_to_map_1.
    rewrite <- list_fmap_compose, list_elem_of_fmap.
    intros (k' & Heq & Hin). apply macro_of_inj in Heq as ->.
    by apply elem_of_elements in Hin.
Qed.

Lemma holds_macros_of (S : gset Marker) (k : Marker) :
  holds (macros_of S) (test k) = bool_decide (k ∈ S).
Proof.
  pose proof (lookup_macros_of S k) as Hk.
  destruct k; cbn [macro_of test] in Hk; cbn [holds test]; rewrite Hk;
    by destruct (decide _) as [Hin | Hout];
      [ rewrite (bool_decide_eq_true_2 _ Hin)
      | rewrite (bool_decide_eq_false_2 _ Hout) ].
Qed.

Lemma markers_macros_of (S : gset Marker) : markers (macros_of S) = S.
Proof.
  apply set_eq. intros k.
  by rewrite elem_of_markers, holds_macros_of, bool_decide_eq_true.
Qed.

(** Each enumerator is the constant of some build. *)
Lemma every_platform_resolved (p : PlatformType) :
  ∃ m, kTargetPlatform m = Resolved p.
Proof.
  destruct p.
  - by exists {[ "_WIN32" := 1 ]}.
  - by exists {[ "__linux__" := 1 ]}.
  - by exists (<[ "TARGET_OS_OSX" := 1 ]> {[ "__APPLE__" := 1 ]}).
  - by exists (<[ "__ANDROID__" := 1 ]> {[ "__linux__" := 1 ]}).
  - by exists (<[ "TARGET_OS_IPHONE" := 1 ]> {[ "__APPLE__" := 1 ]}).
  - by exists {[ "__wasm__" := 1 ]}.
  - by exists (<[ "OS_CHROMEOS" := 1 ]> {[ "__linux__" := 1 ]}).
Qed.

(** ** The resolver *)

Lemma first_match_find (S : gset Marker) (i : nat) (r : Rule) :
  first_match S i r ↔ list_find (matches S) rules_4_1 = Some (i, r).
Proof. unfold first_match. by rewrite list_find_Some. Qed.

Lemma first_match_unique (S : gset Marker) (i j : nat) (r r' : Rule) :
  first_match S i r → first_match S j r' → i = j ∧ r = r'.
Proof. rewrite !first_match_find. intros -> [= -> ->]. done. Qed.

Lemma Resolver_first_match (S : gset Marker) (i : nat) (r : Rule) :
  first_match S i r → Resolver S = Some (outcome r).
Proof. rewrite first_match_find. unfold Resolver. by intros ->. Qed.

(** Closes the goals [first_match (markers m) i r] once the tests of the
    header are known from the hypotheses. *)
Ltac rule_matches :=
  apply matches_Forall; cbn [guard];
  repeat (apply Forall_cons_2; [ apply elem_of_markers; assumption | ]);
  apply Forall_nil_2.

Ltac earlier_rules_fail :=
  let j := fresh "j" in
  let r := fresh "r" in
  let Hr := fresh "Hr" in
  let Hj := fresh "Hj" in
  intros j r Hr Hj; rewrite matches_Forall;
  repeat (destruct j as [| j];
          [ injection Hr as <-; cbn [guard];
            rewrite ?Forall_cons, ?elem_of_markers; cbn [test];
            intuition congruence
          | ]);
  lia.

Ltac first_rule i :=
  exists i; eexists;
  split; [ split; [ reflexivity | split; [ rule_matches | earlier_rules_fail ] ]
         | reflexivity ].

Lemma kTargetPlatform_rule (m : Macros) :
  ∃ i r, first_match (markers m) i r ∧ kTargetPlatform m = outcome r.
Proof.
  unfold kTargetPlatform. rewrite translation_unit_unfold.
  destruct (holds m (defined "__linux__")) eqn:Hlinux.
  { destruct (holds m (defined "__ANDROID__")) eqn:Handroid;
      [ first_rule 0%nat | ].
    destruct (holds m (defined "OS_CHROMEOS")) eqn:Hchromeos;
      [ first_rule 1%nat | first_rule 2%nat ]. }
  destruct (holds m (defined "_WIN32")) eqn:Hwin32; [ first_rule 3%nat | ].
  destruct (holds m (defined "__APPLE__")) eqn:Happle.
  { destruct (holds m (nonzero "TARGET_OS_OSX")) eqn:Hosx;
      [ first_rule 4%nat | ].
    destruct (holds m (nonzero "TARGET_OS_IPHONE")) eqn:Hiphone;
      [ first_rule 5%nat | first_rule 6%nat ]. }
  destruct (holds m (defined "__wasm__")) eqn:Hwasm;
    [ first_rule 7%nat | first_rule 8%nat ].
Qed.

(** C1. The constant the header defines is the outcome of the first rule
    of section 4.1, in the order 1a, 1b, 1c, 2, 3a, 3b, 3c, 4, 5, that the
    active markers match: some rule matches whose predecessors all fail
    to match, the build ends as that rule says, and this is what the
    first-match resolver of the specification computes on the marker
    set. *)
Theorem kTargetPlatform_follows_priority_order (m : Macros) :
  (∃ i r, first_match (markers m) i r ∧ kTargetPlatform m = outcome r) ∧
  Resolver (markers m) = Some (kTargetPlatform m).
Proof.
  destruct (kTargetPlatform_rule m) as (i & r & Hfirst & Hout).
  split; [ by exists i, r | ].
  rewrite Hout. by apply (Resolver_first_match _ i).
Qed.

Lemma kTargetPlatform_branch (m : Macros) :
  branch (markers m) (kTargetPlatform m).
Proof.
  unfold kTargetPlatform. rewrite translation_unit_unfold.
  destruct (holds m (defined "__linux__")) eqn:Hlinux.
  { destruct (holds m (defined "__ANDROID__")) eqn:Handroid;
      [ by constructor; rewrite ?not_elem_of_markers, ?elem_of_markers | ].
    destruct (holds m (defined "OS_CHROMEOS")) eqn:Hchromeos;
      by constructor; rewrite ?not_elem_of_markers, ?elem_of_markers. }
  destruct (holds m (defined "_WIN32")) eqn:Hwin32;
    [ by constructor; rewrite ?not_elem_of_markers, ?elem_of_markers | ].
  destruct (holds m (defined "__APPLE__")) eqn:Happle.
  { destruct (holds m (nonzero "TARGET_OS_OSX")) eqn:Hosx;
      [ by constructor; rewrite ?not_elem_of_markers, ?elem_of_markers | ].
    destruct (holds m (nonzero "TARGET_OS_IPHONE")) eqn:Hiphone;
      by constructor; rewrite ?not_elem_of_markers, ?elem_of_markers. }
  destruct (holds m (defined "__wasm__")) eqn:Hwasm;
    by constructor; rewrite ?not_elem_of_markers, ?elem_of_markers.
Qed.

(** Case analysis on the branch taken under [m]. *)
Ltac by_branch m :=
  let H := fresh "Hbranch" in
  pose proof (kTargetPlatform_branch m) as H;
  inversion H as [ ? ? Hb | ? ? ? Hb | ? ? ? Hb | ? ? Hb | ? ? ? ? Hb
                 | ? ? ? ? ? Hb | ? ? ? ? ? Hb | ? ? ? ? Hb | ? ? ? ? Hb ];
  clear H; rewrite <- ?Hb in *.

(** C4. Resolution is total and unambiguous.  Under every macro table
    one line of the conditional survives, a definition of the constant
    or a diagnostic, never none and never two; and when the
    configuration is supported, that is, the first rule of section 4.1
    its markers match names a platform, that line is a definition and
    the constant has that single value. *)
Theorem resolution_total_and_unambiguous (m : Macros) :
  (∃ o, translation_unit m = [ o ]) ∧
  (supported (markers m) →
   ∃ p, translation_unit m = [ kept p ] ∧
        kTargetPlatform m = Resolved p ∧
        ∀ q, kTargetPlatform m = Resolved q → q = p).
Proof.
  split; [ apply translation_unit_single | ].
  intros (i & r & p & Hfirst & Hp).
  destruct (kTargetPlatform_rule m) as (i' & r' & Hfirst' & Hout).
  destruct (first_match_unique _ _ _ _ _ Hfirst Hfirst') as [_ <-].
  rewrite Hp in Hout. exists p.
  split; [ | split; [ done | congruence ] ].
  revert Hout. clear. unfold kTargetPlatform.
  rewrite translation_unit_unfold.
  repeat case (holds m _); cbn [build diagnostics definitions]; congruence.
Qed.

Lemma resolution_total_and_unambiguous_android :
  supported (markers macros_android) ∧
  ∃ p, translation_unit macros_android = [ kept p ] ∧
       kTargetPlatform macros_android = Resolved p ∧
       ∀ q, kTargetPlatform macros_android = Resolved q → q = p.
Proof.
  assert (Hs : supported (markers macros_android)).
  { exists 0%nat,
      {| guard := [ LinuxFamily; Android ]; outcome := Resolved kAndroid |},
      kAndroid.
    split; [ | reflexivity ]. split; [ reflexivity | ]. split.
    - apply matches_Forall.
      repeat (apply Forall_cons_2; [ apply elem_of_markers; reflexivity | ]).
      apply Forall_nil_2.
    - intros j r' _ Hj. lia. }
  split; [ exact Hs | ].
  apply (proj2 (resolution_total_and_unambiguous macros_android) Hs).
Defined.

(** ** Build failures *)

(** Propositional goals over a known outcome and known memberships. *)
Ltac settle :=
  repeat match goal with
         | |- _ ∧ _ => split
         | |- _ ↔ _ => split
         | |- _ → _ => intro
         | |- ¬ _ => intro
         | H : _ ∧ _ |- _ => destruct H
         | H : _ ∨ _ |- _ => destruct H
         | H : ∃ _, _ |- _ => destruct H
         | H : ?k ∉ ?S, H' : ?k ∈ ?S |- _ => destruct (H H')
         | H : _ = _ |- _ => discriminate H
         end;
  try reflexivity; eauto.

(** With [__linux__] and [__APPLE__] both defined and neither Apple
    sub-target set, the first branch of the conditional is taken: the
    build defines the constant as [kLinux] and meets no [#error],
    although the Apple-family marker is set without a sub-marker. *)
Lemma apple_without_target_under_linux_builds :
  kTargetPlatform macros_linux_apple = Resolved kLinux ∧
  ¬ (UnsupportedPlatform (kTargetPlatform macros_linux_apple) ↔
     (AppleFamily ∈ markers macros_linux_apple ∧
      (MacOS ∉ markers macros_linux_apple) ∧
      (IPhone ∉ markers macros_linux_apple)) ∨
     ((LinuxFamily ∉ markers macros_linux_apple) ∧
      (Windows ∉ markers macros_linux_apple) ∧
      (AppleFamily ∉ markers macros_linux_apple) ∧
      (WebAssembly ∉ markers macros_linux_apple))).
Proof.
  split; [ reflexivity | ].
  intros [_ Hfail].
  destruct Hfail as [msg Hmsg]; [ | discriminate Hmsg ].
  left. rewrite ?not_elem_of_markers, ?elem_of_markers. by repeat split.
Qed.

(** C6, amended.  The build fails with an [#error] exactly when neither
    the Linux-family nor the Windows marker is set and either (a) the
    Apple-family marker is set without the macOS and the iPhone
    sub-marker, which gives the diagnostic of the Apple branch, or (b)
    the Apple-family and the WebAssembly marker are not set either, which
    gives the diagnostic of the last branch; in every other case the
    constant is defined with a platform. *)
Theorem unsupported_platform_iff (m : Macros) :
  let S := markers m in
  (kTargetPlatform m =
     Failed (error_directive "Unsupported Apple platform target.") ↔
   (LinuxFamily ∉ S) ∧ (Windows ∉ S) ∧
   AppleFamily ∈ S ∧ (MacOS ∉ S) ∧ (IPhone ∉ S)) ∧
  (kTargetPlatform m =
     Failed (error_directive "Unsupported target platform.") ↔
   (LinuxFamily ∉ S) ∧ (Windows ∉ S) ∧
   (AppleFamily ∉ S) ∧ (WebAssembly ∉ S)) ∧
  (UnsupportedPlatform (kTargetPlatform m) ↔
   ((LinuxFamily ∉ S) ∧ (Windows ∉ S) ∧
    AppleFamily ∈ S ∧ (MacOS ∉ S) ∧ (IPhone ∉ S)) ∨
   ((LinuxFamily ∉ S) ∧ (Windows ∉ S) ∧
    (AppleFamily ∉ S) ∧ (WebAssembly ∉ S))) ∧
  ((∃ p, kTargetPlatform m = Resolved p) ↔
   ¬ UnsupportedPlatform (kTargetPlatform m)).
Proof.
  intros S. subst S. unfold UnsupportedPlatform.
  by_branch m; settle;
    try (by left; settle); try (by right; settle);
    exfalso; eauto.
Qed.

(** ** Precedence among sub-markers *)

(** The Apple-family marker with both of its sub-markers does not give
    [kOSX] when [__linux__] is defined as well: the Linux branch comes
    first. *)
Lemma apple_dual_markers_under_linux :
  kTargetPlatform macros_linux_apple_dual = Resolved kLinux ∧
  ¬ ({[ AppleFamily; MacOS; IPhone ]} ⊆ markers macros_linux_apple_dual →
     kTargetPlatform macros_linux_apple_dual = Resolved kOSX).
Proof.
  split; [ reflexivity | ].
  intros Hosx. enough (Resolved kLinux = Resolved kOSX) by discriminate.
  apply Hosx. intros k Hk. apply elem_of_markers.
  rewrite !elem_of_union, !elem_of_singleton in Hk.
  by destruct Hk as [ [ -> | -> ] | -> ].
Qed.

(** C7, amended.  A marker set with the Linux-family marker and both the
    Android and the ChromeOS sub-marker resolves to Android; a marker set
    with the Apple-family marker and both the macOS and the iPhone
    sub-marker, and with neither the Linux-family nor the Windows marker,
    resolves to desktop macOS. *)
Theorem dual_marker_precedence (m : Macros) :
  ({[ LinuxFamily; Android; ChromeOS ]} ⊆ markers m →
   kTargetPlatform m = Resolved kAndroid) ∧
  ({[ AppleFamily; MacOS; IPhone ]} ⊆ markers m →
   LinuxFamily ∉ markers m → Windows ∉ markers m →
   kTargetPlatform m = Resolved kOSX).
Proof.
  split.
  - intros Hsub.
    assert (LinuxFamily ∈ markers m) by set_solver.
    assert (Android ∈ markers m) by set_solver.
    by_branch m; done.
  - intros Hsub Hlinux Hwindows.
    assert (AppleFamily ∈ markers m) by set_solver.
    assert (MacOS ∈ markers m) by set_solver.
    by_branch m; done.
Qed.

Lemma dual_marker_precedence_instances :
  kTargetPlatform macros_linux_dual = Resolved kAndroid ∧
  kTargetPlatform macros_apple_dual = Resolved kOSX.
Proof.
  split.
  - apply (proj1 (dual_marker_precedence macros_linux_dual)).
    intros k Hk. apply elem_of_markers.
    rewrite !elem_of_union, !elem_of_singleton in Hk.
    by destruct Hk as [ [ -> | -> ] | -> ].
  - apply (proj2 (dual_marker_precedence macros_apple_dual)).
    + intros k Hk. apply elem_of_markers.
      rewrite !elem_of_union, !elem_of_singleton in Hk.
      by destruct Hk as [ [ -> | -> ] | -> ].
    + by apply not_elem_of_markers.
    + by apply not_elem_of_markers.
Defined.

(** ** The predicates *)

Lemma underlying_inj (a b : PlatformType) :
  underlying a = underlying b → a = b.
Proof. destruct a, b; cbn [underlying]; intros H; (reflexivity || lia). Qed.

Lemma eq_op_true (a b : PlatformType) : eq_op a b = true ↔ a = b.
Proof.
  unfold eq_op. rewrite Z.eqb_eq. split.
  - apply underlying_inj.
  - by intros ->.
Qed.

Lemma eq_op_false (a b : PlatformType) : eq_op a b = false ↔ a ≠ b.
Proof. rewrite <- eq_op_true. symmetry. apply not_true_iff_false. Qed.

Lemma TargetIsLinux_true (p : PlatformType) :
  TargetIsLinux p = true ↔ p = kLinux ∨ p = kAndroid ∨ p = kChromeOS.
Proof. unfold TargetIsLinux. rewrite !orb_true_iff, !eq_op_true. tauto. Qed.

Lemma TargetIsDarwin_true (p : PlatformType) :
  TargetIsDarwin p = true ↔ p = kOSX ∨ p = kIPhone.
Proof. unfold TargetIsDarwin. by rewrite orb_true_iff, !eq_op_true. Qed.

(** C2. Each of the eight predicates is true exactly on the members its
    comment documents. *)
Theorem TargetIs_membership (p : PlatformType) :
  (TargetIsWindows p = true ↔ p = kWindows) ∧
  (TargetIsLinux p = true ↔ p = kLinux ∨ p = kAndroid ∨ p = kChromeOS) ∧
  (TargetIsAndroid p = true ↔ p = kAndroid) ∧
  (TargetIsDarwin p = true ↔ p = kOSX ∨ p = kIPhone) ∧
  (TargetIsOSX p = true ↔ p = kOSX) ∧
  (TargetIsIPhone p = true ↔ p = kIPhone) ∧
  (TargetIsWASM p = true ↔ p = kWASM) ∧
  (TargetIsChromeOS p = true ↔ p = kChromeOS).
Proof.
  rewrite TargetIsLinux_true, TargetIsDarwin_true.
  unfold TargetIsWindows, TargetIsAndroid, TargetIsOSX, TargetIsIPhone,
    TargetIsWASM, TargetIsChromeOS.
  rewrite !eq_op_true. tauto.
Qed.

(** C3. Of the seven leaf cases exactly one holds, and a family predicate
    is true exactly on the declared members of its family. *)
Theorem exactly_one_leaf_case (p : PlatformType) :
  length (filter (λ b : bool, b = true) (leaf_cases p)) = 1%nat ∧
  (TargetIsLinux p = true ↔ p ∈ linux_family) ∧
  (TargetIsDarwin p = true ↔ p ∈ darwin_family).
Proof.
  split; [ by destruct p | ].
  rewrite TargetIsLinux_true, TargetIsDarwin_true.
  unfold linux_family, darwin_family.
  rewrite !elem_of_cons, !elem_of_nil. tauto.
Qed.

(** C5. A platform predicate implies the predicate of its family. *)
Theorem leaf_implies_family (p : PlatformType) :
  (TargetIsAndroid p = true → TargetIsLinux p = true) ∧
  (TargetIsChromeOS p = true → TargetIsLinux p = true) ∧
  (TargetIsOSX p = true → TargetIsDarwin p = true) ∧
  (TargetIsIPhone p = true → TargetIsDarwin p = true).
Proof.
  unfold TargetIsLinux, TargetIsDarwin, TargetIsAndroid, TargetIsChromeOS,
    TargetIsOSX, TargetIsIPhone.
  repeat split; intros ->; by rewrite ?orb_true_r.
Qed.

Lemma leaf_implies_family_instances :
  TargetIsLinux kAndroid = true ∧ TargetIsLinux kChromeOS = true ∧
  TargetIsDarwin kOSX = true ∧ TargetIsDarwin kIPhone = true.
Proof.
  split; [ | split; [ | split ] ].
  - apply (proj1 (leaf_implies_family kAndroid)). reflexivity.
  - apply (proj1 (proj2 (leaf_implies_family kChromeOS))). reflexivity.
  - apply (proj1 (proj2 (proj2 (leaf_implies_family kOSX)))). reflexivity.
  - apply (proj2 (proj2 (proj2 (leaf_implies_family kIPhone)))). reflexivity.
Defined.

(** ** Overlaps *)

(** C8. The two family predicates are never true together; a family
    predicate and the predicate of a single platform are both true only
    when that platform is a declared member of the family; and
    [TargetIsWindows] and [TargetIsWASM] are never true together with a
    family predicate. *)
Theorem only_sanctioned_overlaps (p : PlatformType) :
  ¬ (TargetIsLinux p = true ∧ TargetIsDarwin p = true) ∧
  (∀ leaf kind family members,
     (leaf, kind) ∈ leaf_predicates →
     (family, members) ∈ family_predicates →
     leaf p = true → family p = true → kind ∈ members) ∧
  (TargetIsWindows p = true →
   TargetIsLinux p = false ∧ TargetIsDarwin p = false) ∧
  (TargetIsWASM p = true →
   TargetIsLinux p = false ∧ TargetIsDarwin p = false).
Proof.
  split; [ | split; [ | split ] ].
  - destruct p; cbv; intuition discriminate.
  - intros leaf kind family members Hleaf Hfamily.
    unfold leaf_predicates in Hleaf. unfold family_predicates in Hfamily.
    rewrite !elem_of_cons, elem_of_nil in Hleaf.
    rewrite !elem_of_cons, elem_of_nil in Hfamily.
    destruct Hfamily as [ [= -> ->] | [ [= -> ->] | [] ] ];
      destruct Hleaf as
        [ [= -> ->] | [ [= -> ->] | [ [= -> ->] | [ [= -> ->]
        | [ [= -> ->] | [ [= -> ->] | [] ] ] ] ] ] ];
      intros Hl Hf; unfold linux_family, darwin_family;
      rewrite !elem_of_cons;
      destruct p; try discriminate Hl; try discriminate Hf; tauto.
  - destruct p; cbv; intuition discriminate.
  - destruct p; cbv; intuition discriminate.
Qed.

Lemma only_sanctioned_overlaps_instances :
  kAndroid ∈ linux_family ∧ kIPhone ∈ darwin_family ∧
  (TargetIsLinux kWindows = false ∧ TargetIsDarwin kWindows = false) ∧
  (TargetIsLinux kWASM = false ∧ TargetIsDarwin kWASM = false).
Proof.
  split; [ | split; [ | split ] ].
  - apply (proj1 (proj2 (only_sanctioned_overlaps kAndroid))
             TargetIsAndroid kAndroid TargetIsLinux linux_family);
      [ apply list_elem_of_In; simpl; tauto
      | apply list_elem_of_In; simpl; tauto
      | reflexivity | reflexivity ].
  - apply (proj1 (proj2 (only_sanctioned_overlaps kIPhone))
             TargetIsIPhone kIPhone TargetIsDarwin darwin_family);
      [ apply list_elem_of_In; simpl; tauto
      | apply list_elem_of_In; simpl; tauto
      | reflexivity | reflexivity ].
  - apply (proj1 (proj2 (proj2 (only_sanctioned_overlaps kWindows)))).
    reflexivity.
  - apply (proj2 (proj2 (proj2 (only_sanctioned_overlaps kWASM)))).
    reflexivity.
Defined.

(** ** The four groups *)

(** C9. Windows, the Linux family, the Darwin family and WASM partition
    the enumeration: exactly one of the four predicates is true, and the
    Linux family is the complement of the other three. *)
Theorem linux_family_is_complement (p : PlatformType) :
  length (filter (λ b : bool, b = true) (groups p)) = 1%nat ∧
  (TargetIsLinux p = true ↔
   TargetIsWindows p = false ∧ TargetIsDarwin p = false ∧
   TargetIsWASM p = false).
Proof.
  split; [ by destruct p | ].
  destruct p; cbv; intuition discriminate.
Qed.

(** ** Desktop Linux *)

(** C10. The constant is [kLinux] exactly when [TargetIsLinux] is true
    and [TargetIsAndroid] and [TargetIsChromeOS] are false, and none of
    the eight predicates is by itself true exactly on [kLinux]. *)
Theorem desktop_linux_by_conjunction :
  (∀ p, p = kLinux ↔
        TargetIsLinux p = true ∧ TargetIsAndroid p = false ∧
        TargetIsChromeOS p = false) ∧
  (∀ f, f ∈ predicates → ¬ ∀ p, f p = true ↔ p = kLinux).
Proof.
  split.
  - intros p. destruct p; cbv; intuition discriminate.
  - intros f Hf Hiff. unfold predicates in Hf.
    rewrite !elem_of_cons, elem_of_nil in Hf.
    pose proof (Hiff kLinux) as Hlinux.
    pose proof (Hiff kAndroid) as Handroid.
    destruct Hf as [ -> | [ -> | [ -> | [ -> | [ -> | [ -> | [ -> | [ -> | [] ] ] ] ] ] ] ] ];
      cbv in Hlinux, Handroid;
      (by destruct Hlinux as [_ Hl]; specialize (Hl eq_refl))
      || (by destruct Handroid as [Ha _]; specialize (Ha eq_refl)).
Qed.

(** ** The scenarios of the specification *)

Example scenario_linux_android :
  kTargetPlatform (macros_of {[ LinuxFamily; Android ]}) = Resolved kAndroid ∧
  TargetIsAndroid kAndroid = true ∧ TargetIsLinux kAndroid = true ∧
  TargetIsWindows kAndroid = false.
Proof. by vm_compute. Qed.

Example scenario_apple_desktop :
  kTargetPlatform (macros_of {[ AppleFamily; MacOS ]}) = Resolved kOSX ∧
  TargetIsOSX kOSX = true ∧ TargetIsDarwin kOSX = true ∧
  TargetIsIPhone kOSX = false.
Proof. by vm_compute. Qed.

Example scenario_apple_without_target :
  kTargetPlatform (macros_of {[ AppleFamily ]}) =
    Failed (error_directive "Unsupported Apple platform target.").
Proof. by vm_compute. Qed.

Example scenario_no_marker :
  kTargetPlatform (macros_of ∅) =
    Failed (error_directive "Unsupported target platform.").
Proof. by vm_compute. Qed.

(** A header of Apple's that sets [TARGET_OS_OSX] to 0 leaves the macOS
    marker inactive although the macro is defined. *)
Example scenario_iphone_with_osx_zero :
  kTargetPlatform
    (<[ "TARGET_OS_OSX" := 0 ]>
       (<[ "TARGET_OS_IPHONE" := 1 ]> {[ "__APPLE__" := 1 ]}))
  = Resolved kIPhone.
Proof. reflexivity. Qed.

(** * Further properties of the header *)

(** ** What the conditional reads *)






(** ** Values of the tested macros *)








(** ** The predicates in terms of the macros *)

(** X4. In a build that succeeds, each predicate is a test of the macros.
    [TargetIsLinux] is [defined(__linux__)] and nothing more; every other
    predicate also asks that the markers of the earlier branches are not
    set, so [TargetIsWindows] is false when [__linux__] is defined with
    [_WIN32], and [TargetIsChromeOS] is false when [__ANDROID__] is
    defined with [OS_CHROMEOS]. *)
Theorem TargetIs_in_terms_of_macros (m : Macros) (p : PlatformType) :
  kTargetPlatform m = Resolved p →
  let S := markers m in
  (TargetIsLinux p = true ↔ LinuxFamily ∈ S) ∧
  (TargetIsAndroid p = true ↔ LinuxFamily ∈ S ∧ Android ∈ S) ∧
  (TargetIsChromeOS p = true ↔
   LinuxFamily ∈ S ∧ (Android ∉ S) ∧ ChromeOS ∈ S) ∧
  (TargetIsWindows p = true ↔ (LinuxFamily ∉ S) ∧ Windows ∈ S) ∧
  (TargetIsDarwin p = true ↔
   (LinuxFamily ∉ S) ∧ (Windows ∉ S) ∧ AppleFamily ∈ S) ∧
  (TargetIsOSX p = true ↔
   (LinuxFamily ∉ S) ∧ (Windows ∉ S) ∧ AppleFamily ∈ S ∧ MacOS ∈ S) ∧
  (TargetIsIPhone p = true ↔
   (LinuxFamily ∉ S) ∧ (Windows ∉ S) ∧ AppleFamily ∈ S ∧
   (MacOS ∉ S) ∧ IPhone ∈ S) ∧
  (TargetIsWASM p = true ↔
   (LinuxFamily ∉ S) ∧ (Windows ∉ S) ∧ (AppleFamily ∉ S) ∧
   WebAssembly ∈ S).
Proof.
  intros Hp S. subst S.
  by_branch m; try discriminate Hp; injection Hp as <-; settle.
Qed.

Lemma TargetIs_in_terms_of_macros_android :
  (TargetIsLinux kAndroid = true ↔ LinuxFamily ∈ markers macros_android) ∧
  (TargetIsWindows kAndroid = true ↔
   (LinuxFamily ∉ markers macros_android) ∧ Windows ∈ markers macros_android).
Proof.
  pose proof (TargetIs_in_terms_of_macros macros_android kAndroid eq_refl)
    as (Hlinux & _ & _ & Hwindows & _).
  exact (conj Hlinux Hwindows).
Defined.

(** ** Markers that are not consulted *)



(** ** Inclusions of the header *)

Import port_h.

Lemma include_declared_guard (T : Macros → Macros) (st st' : State)
    (p : PlatformType) :
  include T st = declared p st' → include_guard st' = true.
Proof.
  unfold include.
  destruct (include_guard st || holds (macros st) _); [ discriminate | ].
  destruct (kTargetPlatform _); [ | discriminate ].
  by intros [= _ <-].
Qed.

Lemma include_guarded (T : Macros → Macros) (st : State) :
  include_guard st = true → include T st = skipped st.
Proof. unfold include. by intros ->. Qed.

Lemma include_times_guarded (T : Macros → Macros) (n : nat) (st : State) :
  include_guard st = true →
  include_times T n st = replicate n (skipped st).
Proof.
  intros Hguard. induction n as [| n IH]; [ reflexivity | ].
  cbn [include_times replicate]. rewrite include_guarded by done.
  by rewrite IH.
Qed.

(** X6. The include guard works: however often the header is included in
    a row, and from whatever state, the constant is declared at most
    once; and after the inclusion that declares it, every later one is
    skipped and leaves the state as it is. *)
Theorem include_guard_declares_once (T : Macros → Macros) (n : nat)
    (st : State) :
  (length (filter (λ r, is_declared r = true) (include_times T n st)) ≤ 1)%nat ∧
  ∀ p st', include T st = declared p st' →
           include_times T (S n) st
             = declared p st' :: replicate n (skipped st').
Proof.
  split.
  - revert st. induction n as [| n IH]; intros st; [ cbn; lia | ].
    cbn [include_times]. destruct (include T st) as [st' | p st' | f] eqn:Hinc.
    + rewrite filter_cons_False by done. apply IH.
    + apply include_declared_guard in Hinc.
      rewrite include_times_guarded by done.
      rewrite filter_cons_True by done. cbn [length].
      enough (filter (λ r, is_declared r = true) (replicate n (skipped st'))
                = []) as -> by (cbn; lia).
      clear. induction n as [| n IH]; [ reflexivity | ].
      cbn [replicate]. by rewrite filter_cons_False.
    + rewrite filter_cons_False by done. cbn. lia.
  - intros p st' Hinc. cbn [include_times]. rewrite Hinc.
    apply include_declared_guard in Hinc.
    by rewrite include_times_guarded.
Qed.

Lemma include_guard_declares_once_msvc :
  include_times (λ m, m) 3 (initial macros_windows_msvc)
    = declared kWindows included_windows_msvc
      :: replicate 2 (skipped included_windows_msvc).
Proof.
  apply (proj2 (include_guard_declares_once (λ m, m) 2
                  (initial macros_windows_msvc))).
  reflexivity.
Defined.





(** X9. A build in which [TargetIsDarwin] is true has gone through
    [<TargetConditionals.h>]: [__APPLE__] was defined when the header was
    included, and the platform is the one the conditional resolves on
    the macros as Apple's header leaves them, not as they were before. *)
Theorem darwin_build_reads_TargetConditionals (T : Macros → Macros)
    (m : Macros) (p : PlatformType) (st' : State) :
  include T (initial m) = declared p st' →
  TargetIsDarwin p = true →
  is_Some (m !! "__APPLE__") ∧ kTargetPlatform (T m) = Resolved p.
Proof.
  unfold include. cbn [initial macros include_guard orb].
  destruct (holds m (defined "MOZC_BASE_PORT_H_")); [ discriminate | ].
  destruct (holds m (defined "__APPLE__")) eqn:Happle.
  - intros Hinc _. split.
    + by apply bool_decide_eq_true in Happle.
    + destruct (kTargetPlatform (T m)); [ | discriminate Hinc ].
      by injection Hinc as -> _.
  - intros Hinc Hdarwin. exfalso.
    destruct (kTargetPlatform m) as [q |] eqn:Hq; [ | discriminate Hinc ].
    injection Hinc as -> _.
    assert (AppleFamily ∉ markers m) as Hno
      by by apply not_elem_of_markers.
    apply TargetIsDarwin_true in Hdarwin.
    by_branch m; try done; injection Hq as <-;
      by destruct Hdarwin.
Qed.

Lemma darwin_build_reads_TargetConditionals_mac :
  is_Some (({[ "__APPLE__" := 1 ]} : Macros) !! "__APPLE__") ∧
  kTargetPlatform (TargetConditionals_mac {[ "__APPLE__" := 1 ]})
    = Resolved kOSX.
Proof.
  apply (darwin_build_reads_TargetConditionals TargetConditionals_mac
           {[ "__APPLE__" := 1 ]} kOSX
           {| macros :=
                delete "MOZC_NO_UNIQUE_ADDRESS_ATTRIBUTE"
                  (TargetConditionals_mac {[ "__APPLE__" := 1 ]});
              include_guard := true;
              no_unique_address_attribute :=
                Some "[[no_unique_address]]" |});
    reflexivity.
Defined.
